(** * The transcript endpoints of [main.py]

    A shallow embedding of the two request handlers of [src/main.py],
    [get_transcript] and [list_transcripts], together with the Python
    machinery they rely on: exceptions and [try]/[except], the logger, and
    the calls into the [youtube_transcript_api] library.

    Handlers are computations in a state-and-exception monad.  The state is
    the part of the process a handler can touch: the records it hands to
    the logger and the sequence of calls it makes into the library.  An
    exception does not roll the state back, as in Python. *)

From Stdlib Require Import Ascii String List ZArith Bool Lia DecimalString.
Import ListNotations.
Open Scope string_scope.
Open Scope Z_scope.

Set Warnings "-register-all".

(** ** Python values *)

(** The objects that end up in a response body: strings, numbers, booleans,
    lists and dictionaries (with their items in insertion order).  [float]
    stands for Python's floating-point numbers, which the handlers only pass
    through. *)
Inductive value (float : Type) : Type :=
| VStr (s : string)
| VFloat (x : float)
| VBool (b : bool)
| VList (l : list (value float))
| VDict (items : list (string * value float)).

Arguments VStr {float} s.
Arguments VFloat {float} x.
Arguments VBool {float} b.
Arguments VList {float} l.
Arguments VDict {float} items.

(** The attributes of a library [Transcript] object that [main.py] reads. *)
Record Transcript : Type := mkTranscript {
  language : string;
  language_code : string;
  is_generated : bool;
  is_translatable : bool
}.

(** ** Exceptions *)

(** What a call into the library can raise: the two classes [main.py]
    imports by name, and any other subclass of [Exception].  Each carries
    the text that [str(e)] gives. *)
Inductive lib_exn : Type :=
| NoTranscriptFound (msg : string)
| TranscriptsDisabled (msg : string)
| OtherException (msg : string).

Definition str (e : lib_exn) : string :=
  match e with
  | NoTranscriptFound msg => msg
  | TranscriptsDisabled msg => msg
  | OtherException msg => msg
  end.

(** What can be in flight inside a handler: a library exception, or the
    [HTTPException] that the handler raises itself. *)
Inductive exn : Type :=
| Lib (e : lib_exn)
| HTTPException (status_code : Z) (detail : string).

(** ** The world a handler runs in *)

Inductive level : Type := INFO | WARNING | ERROR | CRITICAL.

Record log_record : Type := mkLogRecord {
  levelname : level;
  message : string;
  exc_info : bool
}.

(** A call into the library, with its arguments as passed. *)
Inductive ext_call : Type :=
| CallGetTranscript (video_id : string) (languages : list string)
| CallListTranscripts (video_id : string).

Record world : Type := mkWorld {
  calls : list ext_call;   (* oldest first *)
  log : list log_record    (* oldest first *)
}.

(** ** The monad *)

(** A computation that returns an [A] or raises an [E], and changes the
    world either way. *)
Definition M (E A : Type) : Type := world -> (A + E) * world.

Definition ret {E A} (a : A) : M E A := fun w => (inl a, w).

Definition raise {E A} (e : E) : M E A := fun w => (inr e, w).

Definition bind {E A B} (m : M E A) (k : A -> M E B) : M E B :=
  fun w => match m w with
           | (inl a, w') => k a w'
           | (inr e, w') => (inr e, w')
           end.

(** [try: body except ...:]  The clauses see the exceptions of [body] only;
    what a clause raises leaves the statement.  A clause list that does not
    match an exception re-raises it in its last case. *)
Definition try_except {E E' A} (body : M E A) (except_ : E -> M E' A) : M E' A :=
  fun w => match body w with
           | (inl a, w') => (inl a, w')
           | (inr e, w') => except_ e w'
           end.

(** A computation that can only raise library exceptions, run where an
    [HTTPException] may be raised too. *)
Definition upcast {A} (m : M lib_exn A) : M exn A :=
  fun w => match m w with
           | (inl a, w') => (inl a, w')
           | (inr e, w') => (inr (Lib e), w')
           end.

Declare Scope py_scope.
Delimit Scope py_scope with py.
Notation "x <- c ;; k" := (bind c (fun x => k))
  (at level 61, c at next level, right associativity) : py_scope.
Notation "c ;; k" := (bind c (fun _ => k))
  (at level 61, right associativity) : py_scope.
Open Scope py_scope.

(** ** The logger *)

(** [logger.info(msg)] and its siblings append one record and never
    raise. *)
Definition logger_log {E} (lvl : level) (msg : string) (exc : bool) : M E unit :=
  fun w => (inl tt, mkWorld (calls w) (log w ++ [mkLogRecord lvl msg exc])%list).

Definition logger_info {E} (msg : string) : M E unit := logger_log INFO msg false.
Definition logger_warning {E} (msg : string) : M E unit := logger_log WARNING msg false.
Definition logger_error {E} (msg : string) : M E unit := logger_log ERROR msg false.
Definition logger_critical {E} (msg : string) (exc : bool) : M E unit :=
  logger_log CRITICAL msg exc.

(** [str(n)] for a length, as an f-string renders [len(l)]. *)
Definition str_len {A} (l : list A) : string :=
  NilZero.string_of_uint (Nat.to_uint (length l)).

(** [sep.join(l)] on a list of strings. *)
Definition join (sep : string) (l : list string) : string := String.concat sep l.

(** ** The library and the handlers *)

(** The library as the handlers see it: what each of its two entry points
    returns or raises for given arguments. *)
Record YouTubeTranscriptApi (float : Type) : Type := mkApi {
  api_get_transcript : string -> list string -> list (value float) + lib_exn;
  api_list_transcripts : string -> list Transcript + lib_exn
}.

Arguments mkApi {float} _ _.
Arguments api_get_transcript {float} _ _ _.
Arguments api_list_transcripts {float} _ _.

Section Handlers.

Variable float : Type.

(** Python's [repr] of a list of strings, used once, for a log line. *)
Variable repr : list string -> string.

Variable api : YouTubeTranscriptApi float.

(** [YouTubeTranscriptApi.get_transcript(video_id, languages=languages)]:
    the call is recorded with the arguments it is given, then returns or
    raises as the library does. *)
Definition YouTubeTranscriptApi_get_transcript
    (video_id : string) (languages : list string) : M lib_exn (list (value float)) :=
  fun w => (api_get_transcript api video_id languages,
            mkWorld (calls w ++ [CallGetTranscript video_id languages])%list (log w)).

(** [YouTubeTranscriptApi.list_transcripts(video_id)]. *)
Definition YouTubeTranscriptApi_list_transcripts
    (video_id : string) : M lib_exn (list Transcript) :=
  fun w => (api_list_transcripts api video_id,
            mkWorld (calls w ++ [CallListTranscripts video_id])%list (log w)).

(** The detail of the 403 response, built at three places in [main.py]. *)
Definition disabled_detail (video_id : string) : string :=
  "Transcripts are disabled for video '" ++ video_id ++ "'.".

(** [main.py], lines 74 to 108. *)
Definition get_transcript (video_id : string) (languages : list string)
  : M exn (value float) :=
  logger_info ("Received request for transcript of video_id: '" ++ video_id
               ++ "' with languages: " ++ repr languages) ;;
  try_except
    (transcript_list <- YouTubeTranscriptApi_get_transcript video_id languages ;;
     logger_info ("Successfully fetched transcript for video_id: '" ++ video_id ++ "'") ;;
     ret (VDict [("video_id", VStr video_id); ("transcript", VList transcript_list)]))
    (fun e =>
       match e with
       | NoTranscriptFound _ =>
           logger_warning ("No transcript found for video_id: '" ++ video_id
                           ++ "' in languages: " ++ join ", " languages) ;;
           try_except
             (available_transcripts <-
                upcast (YouTubeTranscriptApi_list_transcripts video_id) ;;
              let available_codes := map language_code available_transcripts in
              let error_detail :=
                "Could not find a transcript in the requested languages: "
                ++ join ", " languages ++ ". "
                ++ "Available languages are: " ++ join ", " available_codes in
              logger_info ("Found available transcripts for video_id: '" ++ video_id
                           ++ "': " ++ join ", " available_codes) ;;
              raise (HTTPException 404 error_detail))
             (fun e' =>
                match e' with
                | Lib (TranscriptsDisabled _) =>
                    logger_error (disabled_detail video_id) ;;
                    raise (HTTPException 403 (disabled_detail video_id))
                | _ => raise e'
                end)
       | TranscriptsDisabled _ =>
           logger_error (disabled_detail video_id) ;;
           raise (HTTPException 403 (disabled_detail video_id))
       | _ =>
           logger_critical ("An unexpected error occurred for video_id '" ++ video_id
                            ++ "': " ++ str e) true ;;
           raise (HTTPException 500 ("An unexpected error occurred: " ++ str e))
       end).

(** [main.py], lines 110 to 136. *)
Definition list_transcripts (video_id : string) : M exn (value float) :=
  logger_info ("Received request to list transcripts for video_id: '"
               ++ video_id ++ "'") ;;
  try_except
    (transcript_list <- YouTubeTranscriptApi_list_transcripts video_id ;;
     let formatted_list :=
       map (fun t => VDict [("language", VStr (language t));
                            ("language_code", VStr (language_code t));
                            ("is_generated", VBool (is_generated t));
                            ("is_translatable", VBool (is_translatable t))])
           transcript_list in
     logger_info ("Successfully listed " ++ str_len formatted_list
                  ++ " available transcripts for video_id: '" ++ video_id ++ "'") ;;
     ret (VDict [("video_id", VStr video_id);
                 ("available_transcripts", VList formatted_list)]))
    (fun e =>
       match e with
       | TranscriptsDisabled _ =>
           logger_error (disabled_detail video_id) ;;
           raise (HTTPException 403 (disabled_detail video_id))
       | _ =>
           logger_critical ("An unexpected error occurred while listing transcripts for video_id '"
                            ++ video_id ++ "': " ++ str e) true ;;
           raise (HTTPException 500 ("An unexpected error occurred: " ++ str e))
       end).

End Handlers.

Arguments get_transcript {float} repr api video_id languages _.
Arguments list_transcripts {float} api video_id _.

(** ** The route boundary *)

(** What the client of an endpoint gets: a response, or nothing from the
    handler because an exception left it. *)
Inductive outcome (float : Type) : Type :=
| Response (status_code : Z) (body : value float)
| Unhandled (e : lib_exn).

Arguments Response {float} status_code body.
Arguments Unhandled {float} e.

(** The body of every error response. *)
Definition detail_body {float} (detail : string) : value float :=
  VDict [("detail", VStr detail)].

(** Modelled from the spec: the conversion of what a handler returns or
    raises into an HTTP response is done by the web framework, which is not
    under src/.  Following section 6 of the spec, a returned object is the
    body of a 200 response and an [HTTPException] gives a response with its
    status code and the body [{"detail": detail}].  Any other exception has
    left the handler unconverted. *)
Definition serve {float} (handler : M exn (value float)) (w : world)
  : outcome float * world :=
  match handler w with
  | (inl body, w') => (Response 200 body, w')
  | (inr (HTTPException status_code detail), w') =>
      (Response status_code (detail_body detail), w')
  | (inr (Lib e), w') => (Unhandled e, w')
  end.

(** The calls into the library made between two worlds. *)
Definition calls_since (w w' : world) : list ext_call :=
  skipn (length (calls w)) (calls w').

(** ** Reading a joined list back *)

(** [s.split(", ")]: the pieces of [s] between the occurrences of the
    separator, found from the left.  [cur] is the piece read so far. *)
Fixpoint split_comma_space (cur s : string) {struct s} : list string :=
  match s with
  | EmptyString => [cur]
  | String c rest =>
      let keep := split_comma_space (cur ++ String c EmptyString) rest in
      match rest with
      | String c' rest' =>
          if (Ascii.eqb c ","%char && Ascii.eqb c' " "%char)%bool
          then cur :: split_comma_space EmptyString rest'
          else keep
      | EmptyString => keep
      end
  end.

(** No comma occurs in [s]. *)
Fixpoint comma_free (s : string) : bool :=
  match s with
  | EmptyString => true
  | String c rest => (negb (Ascii.eqb c ","%char) && comma_free rest)%bool
  end.

(** ** The root endpoint and the application's events *)

(** [main.py], lines 55 to 58. *)
Definition startup_event {E} : M E unit :=
  logger_info "Application startup complete." ;;
  logger_info "Log files will be written to api.log".

(** [main.py], lines 60 to 62. *)
Definition shutdown_event {E} : M E unit :=
  logger_info "Application shutdown.".

(** [main.py], lines 65 to 71. *)
Definition read_root {float} : M exn (value float) :=
  logger_info "Root endpoint was accessed." ;;
  ret (VDict [("message",
               VStr "Welcome to the YouTube Transcript API. Go to /docs for documentation.")]).

(** ** Requests and their routes *)

(** A request to one of the three routes that [main.py] registers with
    [@app.get], with the arguments its handler is called with. *)
Inductive request : Type :=
| GetRoot                                                        (* "/" *)
| GetTranscript (video_id : string) (languages : list string)   (* "/transcript/{video_id}" *)
| GetTranscriptsList (video_id : string).                        (* "/transcripts/list/{video_id}" *)

Definition route {float} (repr : list string -> string)
    (api : YouTubeTranscriptApi float) (r : request) : M exn (value float) :=
  match r with
  | GetRoot => read_root
  | GetTranscript video_id languages => get_transcript repr api video_id languages
  | GetTranscriptsList video_id => list_transcripts api video_id
  end.

(** Requests served one after the other by the same process.  A request
    whose handler lets an exception through does not stop the next ones. *)
Fixpoint serve_all {float} (repr : list string -> string)
    (api : YouTubeTranscriptApi float) (reqs : list request) (w : world)
  : list (outcome float) * world :=
  match reqs with
  | [] => ([], w)
  | r :: rest =>
      let (o, w1) := serve (route repr api r) w in
      let (os, w2) := serve_all repr api rest w1 in
      (o :: os, w2)
  end.

(** The life of the application: the handler registered for the
    [startup] event (line 55), the requests, the handler registered for the
    [shutdown] event (line 60). *)
Definition lifespan {float} (repr : list string -> string)
    (api : YouTubeTranscriptApi float) (reqs : list request) (w : world)
  : list (outcome float) * world :=
  let w1 := snd (startup_event (E := exn) w) in
  let (os, w2) := serve_all repr api reqs w1 in
  (os, snd (shutdown_event (E := exn) w2)).

(** The records handed to the logger between two worlds, and their
    levels. *)
Definition log_since (w w' : world) : list log_record :=
  skipn (length (log w)) (log w').

Definition levels_since (w w' : world) : list level :=
  map levelname (log_since w w').

(** The dictionary that [list_transcripts] builds for one transcript
    ([main.py], lines 121 to 126). *)
Definition descriptor {float} (t : Transcript) : value float :=
  VDict [("language", VStr (language t));
         ("language_code", VStr (language_code t));
         ("is_generated", VBool (is_generated t));
         ("is_translatable", VBool (is_translatable t))].

(** The status code of a response, if there is a response. *)
Definition status_of {float} (o : outcome float) : option Z :=
  match o with
  | Response status_code _ => Some status_code
  | Unhandled _ => None
  end.

(** The video a call into the library is about, and the video a request
    names. *)
Definition call_video (c : ext_call) : string :=
  match c with
  | CallGetTranscript video_id _ => video_id
  | CallListTranscripts video_id => video_id
  end.

Definition request_video (r : request) : option string :=
  match r with
  | GetRoot => None
  | GetTranscript video_id _ => Some video_id
  | GetTranscriptsList video_id => Some video_id
  end.

(** The most calls into the library that a request can cost. *)
Definition call_budget (r : request) : nat :=
  match r with
  | GetRoot => 0
  | GetTranscript _ _ => 2
  | GetTranscriptsList _ => 1
  end.

(** Modelled from the spec: the binding of the [languages] query parameter
    declared on line 77, [Query(default=['en'])], is done by the web
    framework.  Following section 6 of the spec, the parameter is repeatable
    and the default is used when it is omitted: [values] are the values
    given for [languages] in the query string, in order, and none given
    means the default. *)
Definition languages_param (values : list string) : list string :=
  match values with
  | [] => ["en"]
  | _ :: _ => values
  end.

(** [GET /transcript/{video_id}] with the given values for [languages]. *)
Definition transcript_route {float} (repr : list string -> string)
    (api : YouTubeTranscriptApi float) (video_id : string) (values : list string)
  : M exn (value float) :=
  get_transcript repr api video_id (languages_param values).

(** ** Sample collaborators *)

Module Samples.

(** Numbers written as in the JSON the library's data comes from. *)
Definition float : Type := string.

(** [repr] on lists whose strings need no escaping. *)
Definition repr (l : list string) : string :=
  "[" ++ join ", " (map (fun s => "'" ++ s ++ "'") l) ++ "]".

Definition segment (text start duration : string) : value float :=
  VDict [("text", VStr text); ("start", VFloat start); ("duration", VFloat duration)].

Definition segments : list (value float) :=
  [segment "never gonna" "0.0" "1.54"; segment "give you up" "1.54" "2.1"].

Definition en : Transcript := mkTranscript "English" "en" false true.
Definition es : Transcript := mkTranscript "Spanish" "es" true false.

(** A collaborator that answers every call the same way. *)
Definition always (g : list (value float) + lib_exn) (l : list Transcript + lib_exn)
  : YouTubeTranscriptApi float :=
  mkApi (fun _ _ => g) (fun _ => l).

Definition no_match : lib_exn := NoTranscriptFound "No transcripts were found".
Definition disabled : lib_exn := TranscriptsDisabled "Subtitles are disabled".
Definition reset : lib_exn := OtherException "Connection reset by peer".

(** The fetch finds nothing in the requested languages; the listing returns
    English and Spanish. *)
Definition mismatch : YouTubeTranscriptApi float :=
  always (inr no_match) (inl [en; es]).

(** The same for one video; every other video has transcripts disabled. *)
Definition mismatch_here : YouTubeTranscriptApi float :=
  mkApi (fun video_id _ =>
           if String.eqb video_id "dQw4w9WgXcQ" then inr no_match else inr disabled)
        (fun video_id =>
           if String.eqb video_id "dQw4w9WgXcQ" then inl [en; es] else inr disabled).

(** The fetch finds nothing in the requested languages and the listing then
    fails on the network. *)
Definition flaky : YouTubeTranscriptApi float :=
  always (inr no_match) (inr reset).

(** Transcripts are disabled for the video. *)
Definition off : YouTubeTranscriptApi float :=
  always (inr disabled) (inr disabled).

(** The fetch finds nothing; the listing reports transcripts disabled. *)
Definition off_late : YouTubeTranscriptApi float :=
  always (inr no_match) (inr disabled).

(** The fetch returns a transcript; the listing returns no transcript. *)
Definition fine : YouTubeTranscriptApi float :=
  always (inl segments) (inl []).

(** A second English transcript, generated by the platform. *)
Definition en_auto : Transcript :=
  mkTranscript "English (auto-generated)" "en" true true.

(** The fetch finds nothing in the requested languages; the listing returns
    the manual and the generated English transcript. *)
Definition twice : YouTubeTranscriptApi float :=
  always (inr no_match) (inl [en; en_auto]).

(** Every call fails on the network. *)
Definition broken : YouTubeTranscriptApi float :=
  always (inr reset) (inr reset).

(** A collaborator that hands the requested languages back as the
    transcript, so that the response shows what it was called with. *)
Definition echo : YouTubeTranscriptApi float :=
  mkApi (fun _ languages => inl (map VStr languages)) (fun _ => inl []).

(** A process that has served nothing yet, and one that has. *)
Definition w0 : world := mkWorld [] [].
Definition w1 : world :=
  mkWorld [CallListTranscripts "jNQXAC9IVRw"]
          [mkLogRecord INFO "Application startup complete." false].

End Samples.


(** * Properties of the handlers *)

(** ** Joining and splitting *)

Lemma append_empty_r (s : string) : s ++ "" = s.
Proof. induction s as [| c s IH]; cbn; [reflexivity | now rewrite IH]. Qed.

Lemma append_assoc (s t u : string) : (s ++ t) ++ u = s ++ t ++ u.
Proof. induction s as [| c s IH]; cbn; [reflexivity | now rewrite IH]. Qed.

(** A character other than a comma joins the piece being read. *)
Lemma split_comma_space_step (c : ascii) (cur rest : string) :
  Ascii.eqb c ","%char = false ->
  split_comma_space cur (String c rest) =
  split_comma_space (cur ++ String c "") rest.
Proof.
  intros Hc. cbn [split_comma_space]. rewrite Hc.
  destruct rest; reflexivity.
Qed.

(** A piece without comma is read through to its end. *)
Lemma split_comma_space_word (code : string) :
  comma_free code = true ->
  forall cur tail,
    split_comma_space cur (code ++ tail) = split_comma_space (cur ++ code) tail.
Proof.
  induction code as [| c code IH]; intros Hfree cur tail.
  - cbn. now rewrite append_empty_r.
  - cbn in Hfree. apply andb_true_iff in Hfree as [Hc Hfree].
    apply negb_true_iff in Hc.
    change (String c code ++ tail) with (String c (code ++ tail)).
    rewrite (split_comma_space_step _ _ _ Hc), (IH Hfree), append_assoc.
    reflexivity.
Qed.

(** The separator closes the piece being read. *)
Lemma split_comma_space_sep (cur rest : string) :
  split_comma_space cur (", " ++ rest) = cur :: split_comma_space "" rest.
Proof. reflexivity. Qed.

Lemma join_cons (sep c c' : string) (codes : list string) :
  join sep (c :: c' :: codes) = c ++ sep ++ join sep (c' :: codes).
Proof. reflexivity. Qed.

(** Splitting what [join] made gives the pieces back, when there is at
    least one piece and no piece contains a comma. *)
Lemma split_join (codes : list string) :
  codes <> [] ->
  forallb comma_free codes = true ->
  split_comma_space "" (join ", " codes) = codes.
Proof.
  induction codes as [| c codes IH]; intros Hne Hfree; [contradiction |].
  cbn [forallb] in Hfree. apply andb_true_iff in Hfree as [Hc Hfree].
  destruct codes as [| c' codes].
  - cbn [join String.concat]. rewrite <- (append_empty_r c) at 1.
    rewrite (split_comma_space_word c Hc). reflexivity.
  - rewrite join_cons, (split_comma_space_word c Hc), split_comma_space_sep.
    rewrite IH; [reflexivity | discriminate | exact Hfree].
Qed.

(** A code occurs among the listed codes once per transcript that carries
    it. *)
Lemma count_occ_language_code (ts : list Transcript) (code : string) :
  count_occ string_dec (map language_code ts) code =
  length (filter (fun t => String.eqb (language_code t) code) ts).
Proof.
  induction ts as [| t ts IH]; [reflexivity |].
  cbn [map count_occ filter].
  destruct (string_dec (language_code t) code) as [E | E].
  - rewrite (proj2 (String.eqb_eq _ _) E). cbn [length]. now rewrite IH.
  - rewrite (proj2 (String.eqb_neq _ _) E). exact IH.
Qed.

Section Properties.

Variable float : Type.
Variable repr : list string -> string.
Variable api : YouTubeTranscriptApi float.

(** ** What [get_transcript] answers and which calls it makes *)

(** The response of [get_transcript], case by case on what the library
    does. *)
Lemma serve_get_transcript_outcome (video_id : string) (languages : list string) (w : world) :
  fst (serve (get_transcript repr api video_id languages) w) =
  match api_get_transcript api video_id languages with
  | inl transcript_list =>
      Response 200 (VDict [("video_id", VStr video_id);
                           ("transcript", VList transcript_list)])
  | inr (NoTranscriptFound _) =>
      match api_list_transcripts api video_id with
      | inl available_transcripts =>
          Response 404 (detail_body
            ("Could not find a transcript in the requested languages: "
             ++ join ", " languages ++ ". Available languages are: "
             ++ join ", " (map language_code available_transcripts)))
      | inr (TranscriptsDisabled _) =>
          Response 403 (detail_body (disabled_detail video_id))
      | inr e => Unhandled e
      end
  | inr (TranscriptsDisabled _) =>
      Response 403 (detail_body (disabled_detail video_id))
  | inr e =>
      Response 500 (detail_body ("An unexpected error occurred: " ++ str e))
  end.
Proof.
  unfold serve, get_transcript, try_except, bind, upcast,
    YouTubeTranscriptApi_get_transcript, YouTubeTranscriptApi_list_transcripts.
  cbn.
  destruct (api_get_transcript api video_id languages) as [tl | [m | m | m]]; cbn;
    try reflexivity.
  destruct (api_list_transcripts api video_id) as [ts | [m' | m' | m']]; cbn;
    reflexivity.
Qed.

(** The calls [get_transcript] adds to the record. *)
Lemma serve_get_transcript_calls (video_id : string) (languages : list string) (w : world) :
  calls (snd (serve (get_transcript repr api video_id languages) w)) =
  (calls w ++
   CallGetTranscript video_id languages ::
   match api_get_transcript api video_id languages with
   | inr (NoTranscriptFound _) => [CallListTranscripts video_id]
   | _ => []
   end)%list.
Proof.
  unfold serve, get_transcript, try_except, bind, upcast,
    YouTubeTranscriptApi_get_transcript, YouTubeTranscriptApi_list_transcripts.
  cbn.
  destruct (api_get_transcript api video_id languages) as [tl | [m | m | m]]; cbn;
    try reflexivity.
  destruct (api_list_transcripts api video_id) as [ts | [m' | m' | m']]; cbn;
    rewrite <- app_assoc; reflexivity.
Qed.

(** The response of [list_transcripts], case by case on what the library
    does. *)
Lemma serve_list_transcripts_outcome (video_id : string) (w : world) :
  fst (serve (list_transcripts api video_id) w) =
  match api_list_transcripts api video_id with
  | inl transcript_list =>
      Response 200
        (VDict [("video_id", VStr video_id);
                ("available_transcripts",
                 VList (map (fun t =>
                               VDict [("language", VStr (language t));
                                      ("language_code", VStr (language_code t));
                                      ("is_generated", VBool (is_generated t));
                                      ("is_translatable", VBool (is_translatable t))])
                            transcript_list))])
  | inr (TranscriptsDisabled _) =>
      Response 403 (detail_body (disabled_detail video_id))
  | inr e =>
      Response 500 (detail_body ("An unexpected error occurred: " ++ str e))
  end.
Proof.
  unfold serve, list_transcripts, try_except, bind,
    YouTubeTranscriptApi_list_transcripts.
  cbn.
  destruct (api_list_transcripts api video_id) as [ts | [m | m | m]]; reflexivity.
Qed.

Lemma calls_since_app (w w' : world) (l : list ext_call) :
  calls w' = (calls w ++ l)%list -> calls_since w w' = l.
Proof.
  intros H. unfold calls_since. rewrite H.
  rewrite skipn_app, skipn_all, Nat.sub_diag. reflexivity.
Qed.

(** ** When an exception leaves a handler *)

(** [list_transcripts] turns whatever the library raises into a response. *)
Lemma list_transcripts_always_responds (video_id : string) (w : world) :
  exists status_code body,
    fst (serve (list_transcripts api video_id) w) = Response status_code body.
Proof.
  rewrite serve_list_transcripts_outcome.
  destruct (api_list_transcripts api video_id) as [ts | [m | m | m]]; eauto.
Qed.

(** [get_transcript] lets an exception through in one situation only: the
    fetch raised [NoTranscriptFound] and the listing made by that clause
    raised something other than [TranscriptsDisabled].  The clauses of the
    outer [try] do not apply to what the [NoTranscriptFound] clause
    raises. *)
Lemma get_transcript_unhandled_iff
    (video_id : string) (languages : list string) (w : world) (e : lib_exn) :
  fst (serve (get_transcript repr api video_id languages) w) = Unhandled e <->
  (exists m, api_get_transcript api video_id languages = inr (NoTranscriptFound m))
  /\ api_list_transcripts api video_id = inr e
  /\ (forall m', e <> TranscriptsDisabled m').
Proof.
  rewrite serve_get_transcript_outcome. split.
  - destruct (api_get_transcript api video_id languages) as [tl | [m | m | m]];
      try discriminate.
    destruct (api_list_transcripts api video_id) as [ts | [m' | m' | m']];
      try discriminate; intros H; injection H as <-;
      (split; [eauto | split; [reflexivity | discriminate]]).
  - intros [[m ->] [-> He]].
    destruct e as [m' | m' | m']; try reflexivity.
    exfalso. exact (He m' eq_refl).
Qed.

(** ** The claims *)

(** C1, as amended.  [get_transcript] answers 404 only when the fetch raised
    [NoTranscriptFound] and the listing that follows returned; the detail
    then names the requested languages and always ends with the clause of
    available languages.  A listing that raises never leads to a 404. *)
Theorem not_found_response_requires_listing
    (video_id : string) (languages : list string) (w : world) (body : value float) :
  fst (serve (get_transcript repr api video_id languages) w) = Response 404 body ->
  exists m available_transcripts,
    api_get_transcript api video_id languages = inr (NoTranscriptFound m)
    /\ api_list_transcripts api video_id = inl available_transcripts
    /\ body = detail_body
         ("Could not find a transcript in the requested languages: "
          ++ join ", " languages ++ ". Available languages are: "
          ++ join ", " (map language_code available_transcripts)).
Proof.
  rewrite serve_get_transcript_outcome.
  destruct (api_get_transcript api video_id languages) as [tl | [m | m | m]];
    try discriminate.
  destruct (api_list_transcripts api video_id) as [ts | [m' | m' | m']];
    try discriminate.
  intros H. injection H as <-. exists m, ts. repeat split.
Qed.

(** C3.  When the library reports that transcripts are disabled, the
    response is 403 and its detail is exactly
    [Transcripts are disabled for video '<video_id>'.]: for [get_transcript]
    when the fetch reports it, for [get_transcript] when the fetch raised
    [NoTranscriptFound] and the listing reports it, and for
    [list_transcripts]. *)
Theorem disabled_gives_403 (video_id : string) (languages : list string) (w : world) :
  let forbidden : outcome float :=
    Response 403
      (VDict [("detail", VStr ("Transcripts are disabled for video '"
                               ++ video_id ++ "'."))]) in
  ((exists m, api_get_transcript api video_id languages = inr (TranscriptsDisabled m)) ->
   fst (serve (get_transcript repr api video_id languages) w) = forbidden)
  /\ ((exists m, api_get_transcript api video_id languages = inr (NoTranscriptFound m)) ->
      (exists m, api_list_transcripts api video_id = inr (TranscriptsDisabled m)) ->
      fst (serve (get_transcript repr api video_id languages) w) = forbidden)
  /\ ((exists m, api_list_transcripts api video_id = inr (TranscriptsDisabled m)) ->
      fst (serve (list_transcripts api video_id) w) = forbidden).
Proof.
  cbv zeta. repeat split.
  - intros [m H]. rewrite serve_get_transcript_outcome, H. reflexivity.
  - intros [m H] [m' H']. rewrite serve_get_transcript_outcome, H, H'. reflexivity.
  - intros [m H]. rewrite serve_list_transcripts_outcome, H. reflexivity.
Qed.

(** C4.  When the fetch returns a sequence of segments, the response is 200
    and its body is [{"video_id": video_id, "transcript": segments}], with
    the sequence the library returned, unchanged. *)
Theorem fetched_transcript_passed_through
    (video_id : string) (languages : list string) (w : world)
    (segments : list (value float)) :
  api_get_transcript api video_id languages = inl segments ->
  fst (serve (get_transcript repr api video_id languages) w) =
  Response 200 (VDict [("video_id", VStr video_id); ("transcript", VList segments)]).
Proof.
  intros H. rewrite serve_get_transcript_outcome, H. reflexivity.
Qed.

(** C5, as amended.  When the fetch raised [NoTranscriptFound] and the
    listing returns a non-empty sequence of transcripts, the response is 404
    and its detail ends with the language codes of the listed transcripts
    joined by [", "]: one entry per transcript, in the order of the listing.
    A code is listed as many times as there are listed transcripts that
    carry it, hence exactly once when no two transcripts share a code.  When
    no code contains a comma, splitting the clause gives exactly the entries
    back. *)
Theorem not_found_lists_one_entry_per_transcript
    (video_id : string) (languages : list string) (w : world)
    (m : string) (available_transcripts : list Transcript) :
  api_get_transcript api video_id languages = inr (NoTranscriptFound m) ->
  api_list_transcripts api video_id = inl available_transcripts ->
  available_transcripts <> [] ->
  exists entries,
    fst (serve (get_transcript repr api video_id languages) w) =
    Response 404
      (VDict [("detail",
               VStr ("Could not find a transcript in the requested languages: "
                     ++ join ", " languages ++ ". Available languages are: "
                     ++ join ", " entries))])
    /\ entries = map language_code available_transcripts
    /\ (forall code,
          count_occ string_dec entries code =
          length (filter (fun t => String.eqb (language_code t) code)
                         available_transcripts))
    /\ (NoDup (map language_code available_transcripts) ->
        forall t, In t available_transcripts ->
                  count_occ string_dec entries (language_code t) = 1%nat)
    /\ (forallb comma_free entries = true ->
        split_comma_space "" (join ", " entries) = entries).
Proof.
  intros Hget Hlist Hne. eexists.
  split; [| split; [reflexivity | split; [| split]]].
  - rewrite serve_get_transcript_outcome, Hget, Hlist. reflexivity.
  - apply count_occ_language_code.
  - intros Hnodup t Ht.
    apply (proj1 (NoDup_count_occ' string_dec _) Hnodup).
    apply in_map. exact Ht.
  - intros Hfree. apply split_join; [| exact Hfree].
    destruct available_transcripts; [contradiction | discriminate].
Qed.

(** C6.  The first call [get_transcript] makes into the library is the
    fetch, with the video id and the language list exactly as the handler
    received them, and it makes no other fetch. *)
Theorem languages_passed_as_given
    (video_id : string) (languages : list string) (w : world) :
  exists rest,
    calls_since w (snd (serve (get_transcript repr api video_id languages) w)) =
    CallGetTranscript video_id languages :: rest
    /\ forall v l, ~ In (CallGetTranscript v l) rest.
Proof.
  eexists. split.
  - apply calls_since_app. apply serve_get_transcript_calls.
  - intros v l.
    destruct (api_get_transcript api video_id languages) as [tl | [m | m | m]];
      cbn; intros H; try contradiction.
    destruct H as [H | []]. discriminate.
Qed.


(** C8.  One run of [get_transcript] makes one fetch call, followed by at
    most one listing call, and nothing else; the listing call is made only
    when the fetch raised [NoTranscriptFound]. *)
Theorem at_most_two_calls (video_id : string) (languages : list string) (w : world) :
  exists listing,
    calls_since w (snd (serve (get_transcript repr api video_id languages) w)) =
    CallGetTranscript video_id languages :: listing
    /\ (listing = [] \/ listing = [CallListTranscripts video_id])
    /\ (listing <> [] ->
        exists m, api_get_transcript api video_id languages = inr (NoTranscriptFound m))
    /\ (length (calls_since w (snd (serve (get_transcript repr api video_id languages) w)))
        <= 2)%nat.
Proof.
  eexists. split; [| split; [| split]].
  - apply calls_since_app. apply serve_get_transcript_calls.
  - destruct (api_get_transcript api video_id languages) as [tl | [m | m | m]]; auto.
  - destruct (api_get_transcript api video_id languages) as [tl | [m | m | m]];
      intros H; try (exfalso; apply H; reflexivity).
    eauto.
  - rewrite (calls_since_app _ _ _ (serve_get_transcript_calls video_id languages w)).
    destruct (api_get_transcript api video_id languages) as [tl | [m | m | m]];
      cbn; lia.
Qed.

(** C9.  The response of [get_transcript] is a function of the request and
    of what the library does on the calls made for it: two runs with the
    same video id and languages, started in any two worlds and against
    collaborators that behave alike on this request, give the same
    response. *)
Theorem response_is_stateless
    (video_id : string) (languages : list string)
    (api' : YouTubeTranscriptApi float) (w w' : world) :
  api_get_transcript api video_id languages = api_get_transcript api' video_id languages ->
  api_list_transcripts api video_id = api_list_transcripts api' video_id ->
  fst (serve (get_transcript repr api video_id languages) w) =
  fst (serve (get_transcript repr api' video_id languages) w').
Proof.
  intros Hget Hlist.
  assert (Hout := serve_get_transcript_outcome video_id languages w).
  rewrite Hout, Hget, Hlist.
  clear.
  unfold serve, get_transcript, try_except, bind, upcast,
    YouTubeTranscriptApi_get_transcript, YouTubeTranscriptApi_list_transcripts.
  cbn.
  destruct (api_get_transcript api' video_id languages) as [tl | [m | m | m]]; cbn;
    try reflexivity.
  destruct (api_list_transcripts api' video_id) as [ts | [m' | m' | m']]; cbn;
    reflexivity.
Qed.

(** C10.  When the listing returns no transcript at all, [list_transcripts]
    answers 200 with [{"video_id": video_id, "available_transcripts": []}]. *)
Theorem empty_listing_is_200 (video_id : string) (w : world) :
  api_list_transcripts api video_id = inl [] ->
  fst (serve (list_transcripts api video_id) w) =
  Response 200 (VDict [("video_id", VStr video_id);
                       ("available_transcripts", VList [])]).
Proof.
  intros H. rewrite serve_list_transcripts_outcome, H. reflexivity.
Qed.

End Properties.

(** * More of [main.py] *)

Section Coverage.

Variable float : Type.
Variable repr : list string -> string.
Variable api : YouTubeTranscriptApi float.

(** ** The records and calls of one run *)

Lemma log_since_app (w w' : world) (l : list log_record) :
  log w' = (log w ++ l)%list -> log_since w w' = l.
Proof.
  intros H. unfold log_since. rewrite H.
  rewrite skipn_app, skipn_all, Nat.sub_diag. reflexivity.
Qed.

(** The records [get_transcript] hands to the logger. *)
Lemma serve_get_transcript_log (video_id : string) (languages : list string) (w : world) :
  log (snd (serve (get_transcript repr api video_id languages) w)) =
  (log w ++
   mkLogRecord INFO ("Received request for transcript of video_id: '" ++ video_id
                     ++ "' with languages: " ++ repr languages) false ::
   match api_get_transcript api video_id languages with
   | inl _ =>
       [mkLogRecord INFO ("Successfully fetched transcript for video_id: '"
                          ++ video_id ++ "'") false]
   | inr (NoTranscriptFound _) =>
       mkLogRecord WARNING ("No transcript found for video_id: '" ++ video_id
                            ++ "' in languages: " ++ join ", " languages) false ::
       match api_list_transcripts api video_id with
       | inl available_transcripts =>
           [mkLogRecord INFO ("Found available transcripts for video_id: '" ++ video_id
                              ++ "': "
                              ++ join ", " (map language_code available_transcripts))
                        false]
       | inr (TranscriptsDisabled _) =>
           [mkLogRecord ERROR (disabled_detail video_id) false]
       | inr _ => []
       end
   | inr (TranscriptsDisabled _) =>
       [mkLogRecord ERROR (disabled_detail video_id) false]
   | inr e =>
       [mkLogRecord CRITICAL ("An unexpected error occurred for video_id '" ++ video_id
                              ++ "': " ++ str e) true]
   end)%list.
Proof.
  unfold serve, get_transcript, try_except, bind, upcast,
    YouTubeTranscriptApi_get_transcript, YouTubeTranscriptApi_list_transcripts.
  cbn.
  destruct (api_get_transcript api video_id languages) as [tl | [m | m | m]]; cbn;
    repeat rewrite <- app_assoc; try reflexivity.
  destruct (api_list_transcripts api video_id) as [ts | [m' | m' | m']]; cbn;
    repeat rewrite <- app_assoc; reflexivity.
Qed.

(** The calls [list_transcripts] adds to the record. *)
Lemma serve_list_transcripts_calls (video_id : string) (w : world) :
  calls (snd (serve (list_transcripts api video_id) w)) =
  (calls w ++ [CallListTranscripts video_id])%list.
Proof.
  unfold serve, list_transcripts, try_except, bind,
    YouTubeTranscriptApi_list_transcripts.
  cbn.
  destruct (api_list_transcripts api video_id) as [ts | [m | m | m]]; reflexivity.
Qed.

(** [list_transcripts] writes two records on every path. *)
Lemma serve_list_transcripts_log (video_id : string) (w : world) :
  exists last,
    log (snd (serve (list_transcripts api video_id) w)) =
    (log w ++
     [mkLogRecord INFO ("Received request to list transcripts for video_id: '"
                        ++ video_id ++ "'") false; last])%list.
Proof.
  unfold serve, list_transcripts, try_except, bind,
    YouTubeTranscriptApi_list_transcripts.
  cbn.
  destruct (api_list_transcripts api video_id) as [ts | [m | m | m]]; cbn;
    eexists; rewrite <- app_assoc; reflexivity.
Qed.

(** [read_root] in full. *)
Lemma serve_read_root (w : world) :
  serve (read_root (float := float)) w =
  (Response 200
     (VDict [("message",
              VStr "Welcome to the YouTube Transcript API. Go to /docs for documentation.")]),
   mkWorld (calls w)
           (log w ++ [mkLogRecord INFO "Root endpoint was accessed." false])%list).
Proof. reflexivity. Qed.

(** ** One request *)

(** The response to a request does not depend on the world it is served
    in. *)
Lemma route_outcome_any_world (r : request) (w w' : world) :
  fst (serve (route repr api r) w) = fst (serve (route repr api r) w').
Proof.
  destruct r as [| video_id languages | video_id]; cbn [route].
  - reflexivity.
  - now rewrite !serve_get_transcript_outcome.
  - now rewrite !serve_list_transcripts_outcome.
Qed.

(** The calls one request adds: within its budget, and about its video. *)
Lemma route_calls (r : request) (w : world) :
  exists l,
    calls (snd (serve (route repr api r) w)) = (calls w ++ l)%list
    /\ (length l <= call_budget r)%nat
    /\ Forall (fun c => request_video r = Some (call_video c)) l.
Proof.
  destruct r as [| video_id languages | video_id]; cbn [route].
  - exists []. rewrite serve_read_root. cbn. rewrite app_nil_r. repeat split.
    + lia.
    + constructor.
  - eexists. split; [apply serve_get_transcript_calls |].
    destruct (api_get_transcript api video_id languages) as [tl | [m | m | m]];
      cbn; (split; [lia | repeat constructor]).
  - eexists. split; [apply serve_list_transcripts_calls |].
    cbn. split; [lia | repeat constructor].
Qed.

(** The records one request adds: at least one, after those that were
    there. *)
Lemma route_log (r : request) (w : world) :
  exists l,
    log (snd (serve (route repr api r) w)) = (log w ++ l)%list
    /\ (1 <= length l)%nat.
Proof.
  destruct r as [| video_id languages | video_id]; cbn [route].
  - eexists. rewrite serve_read_root. cbn. split; [reflexivity | cbn; lia].
  - eexists. split; [apply serve_get_transcript_log | cbn; lia].
  - destruct (serve_list_transcripts_log video_id w) as [last H].
    eexists. split; [exact H | cbn; lia].
Qed.

(** ** Several requests *)

Lemma serve_all_cons (r : request) (rest : list request) (w : world) :
  serve_all repr api (r :: rest) w =
  (fst (serve (route repr api r) w)
     :: fst (serve_all repr api rest (snd (serve (route repr api r) w))),
   snd (serve_all repr api rest (snd (serve (route repr api r) w)))).
Proof.
  cbn [serve_all].
  destruct (serve (route repr api r) w) as [o w1]. cbn [fst snd].
  destruct (serve_all repr api rest w1) as [os w2]. reflexivity.
Qed.

Lemma serve_all_responses_any_world (reqs : list request) (w w' : world) :
  fst (serve_all repr api reqs w) = fst (serve_all repr api reqs w').
Proof.
  revert w w'. induction reqs as [| r rest IH]; intros w w'.
  - reflexivity.
  - rewrite !serve_all_cons. cbn [fst].
    rewrite (route_outcome_any_world r w w').
    rewrite (IH (snd (serve (route repr api r) w)) (snd (serve (route repr api r) w'))).
    reflexivity.
Qed.

Lemma serve_all_calls (reqs : list request) (w : world) :
  exists l,
    calls (snd (serve_all repr api reqs w)) = (calls w ++ l)%list
    /\ (length l <= list_sum (map call_budget reqs))%nat
    /\ Forall (fun c => exists r, In r reqs /\ request_video r = Some (call_video c)) l.
Proof.
  revert w. induction reqs as [| r rest IH]; intros w.
  - exists []. cbn. rewrite app_nil_r. repeat split; [lia | constructor].
  - rewrite serve_all_cons. cbn [snd].
    destruct (route_calls r w) as [l1 [H1 [B1 V1]]].
    destruct (IH (snd (serve (route repr api r) w))) as [l2 [H2 [B2 V2]]].
    exists (l1 ++ l2)%list. split; [| split].
    + rewrite H2, H1, app_assoc. reflexivity.
    + rewrite length_app. cbn [map list_sum fold_right].
      unfold list_sum in B2. lia.
    + apply Forall_app. split.
      * eapply Forall_impl; [| exact V1]. intros c Hc. exists r. split; [now left | exact Hc].
      * eapply Forall_impl; [| exact V2]. intros c [r' [Hin Hv]].
        exists r'. split; [now right | exact Hv].
Qed.

Lemma serve_all_log (reqs : list request) (w : world) :
  exists l,
    log (snd (serve_all repr api reqs w)) = (log w ++ l)%list
    /\ (length reqs <= length l)%nat.
Proof.
  revert w. induction reqs as [| r rest IH]; intros w.
  - exists []. cbn. rewrite app_nil_r. split; [reflexivity | lia].
  - rewrite serve_all_cons. cbn [snd].
    destruct (route_log r w) as [l1 [H1 B1]].
    destruct (IH (snd (serve (route repr api r) w))) as [l2 [H2 B2]].
    exists (l1 ++ l2)%list. split.
    + rewrite H2, H1, app_assoc. reflexivity.
    + rewrite length_app. cbn [length]. lia.
Qed.

(** ** What [list_transcripts] answers *)

Lemma descriptor_inj (t t' : Transcript) :
  descriptor (float := float) t = descriptor t' -> t = t'.
Proof.
  destruct t, t'. unfold descriptor. cbn. intros H.
  injection H as -> -> -> ->. reflexivity.
Qed.

Lemma map_descriptor_inj (ts ts' : list Transcript) :
  map (descriptor (float := float)) ts = map descriptor ts' -> ts = ts'.
Proof.
  revert ts'. induction ts as [| t ts IH]; intros [| t' ts'] H;
    try discriminate; [reflexivity |].
  cbn [map] in H.
  assert (Ht : descriptor (float := float) t = descriptor t') by congruence.
  assert (Hts : map (descriptor (float := float)) ts = map descriptor ts')
    by congruence.
  apply descriptor_inj in Ht. rewrite Ht, (IH _ Hts). reflexivity.
Qed.

(** X1.  When the listing returns, [list_transcripts] answers 200 with one
    dictionary per transcript, in the order of the listing; the dictionary at
    each position holds the four attributes of the transcript at that
    position, under the keys [language], [language_code], [is_generated] and
    [is_translatable]. *)
Theorem list_transcripts_keeps_every_transcript
    (video_id : string) (w : world) (transcript_list : list Transcript) :
  api_list_transcripts api video_id = inl transcript_list ->
  exists entries,
    fst (serve (list_transcripts api video_id) w) =
    Response 200 (VDict [("video_id", VStr video_id);
                         ("available_transcripts", VList entries)])
    /\ length entries = length transcript_list
    /\ forall i t,
         nth_error transcript_list i = Some t ->
         nth_error entries i =
         Some (VDict [("language", VStr (language t));
                      ("language_code", VStr (language_code t));
                      ("is_generated", VBool (is_generated t));
                      ("is_translatable", VBool (is_translatable t))]).
Proof.
  intros H. rewrite serve_list_transcripts_outcome, H.
  eexists. split; [reflexivity | split].
  - apply length_map.
  - intros i t Hi. rewrite nth_error_map, Hi. reflexivity.
Qed.

(** X2.  The 200 response of [list_transcripts] determines the request and
    the listing: two successful runs that give the same response were about
    the same video id and the same sequence of transcripts (as far as the four
    attributes go), whatever the collaborators and the worlds. *)
Theorem list_transcripts_body_determines_listing
    (api' : YouTubeTranscriptApi float) (video_id video_id' : string) (w w' : world)
    (transcript_list transcript_list' : list Transcript) :
  api_list_transcripts api video_id = inl transcript_list ->
  api_list_transcripts api' video_id' = inl transcript_list' ->
  fst (serve (list_transcripts api video_id) w) =
  fst (serve (list_transcripts api' video_id') w') ->
  video_id = video_id' /\ transcript_list = transcript_list'.
Proof.
  intros H H'. rewrite !serve_list_transcripts_outcome, H, H'.
  intros E. injection E as Ev El. split; [exact Ev |].
  apply map_descriptor_inj. exact El.
Qed.

(** X3.  [list_transcripts] always answers, with status 200, 403 or 500:
    200 exactly when the listing returned, 403 exactly when it raised
    [TranscriptsDisabled], and 500 with the detail
    [An unexpected error occurred: <str(e)>] for every other exception [e],
    [NoTranscriptFound] included. *)
Theorem list_transcripts_status_table (video_id : string) (w : world) :
  let out := fst (serve (list_transcripts api video_id) w) in
  (exists status_code body,
     out = Response status_code body
     /\ (status_code = 200 \/ status_code = 403 \/ status_code = 500))
  /\ (status_of out = Some 200 <->
      exists transcript_list, api_list_transcripts api video_id = inl transcript_list)
  /\ (status_of out = Some 403 <->
      exists m, api_list_transcripts api video_id = inr (TranscriptsDisabled m))
  /\ (forall e,
        api_list_transcripts api video_id = inr e ->
        (forall m, e <> TranscriptsDisabled m) ->
        out = Response 500 (detail_body ("An unexpected error occurred: " ++ str e))).
Proof.
  cbv zeta. rewrite serve_list_transcripts_outcome.
  destruct (api_list_transcripts api video_id) as [ts | [m | m | m]]; cbn;
    (split; [eauto 6 | split; [| split]]);
    try (split; [intros H; try discriminate H; eauto
                | intros [x H]; try discriminate H; reflexivity]);
    intros e He Hne; try discriminate He; injection He as <-; try reflexivity.
  exfalso. exact (Hne m eq_refl).
Qed.

(** X4.  Whatever the listing does, one run of [list_transcripts] makes
    exactly one call into the library, the listing for the requested video
    id, and hands exactly two records to the logger, the first of them the
    [INFO] record of the request. *)
Theorem list_transcripts_one_call_two_records (video_id : string) (w : world) :
  let w' := snd (serve (list_transcripts api video_id) w) in
  calls_since w w' = [CallListTranscripts video_id]
  /\ exists last,
       log_since w w' =
       [mkLogRecord INFO ("Received request to list transcripts for video_id: '"
                          ++ video_id ++ "'") false; last].
Proof.
  cbv zeta. split.
  - apply calls_since_app. apply serve_list_transcripts_calls.
  - destruct (serve_list_transcripts_log video_id w) as [last H].
    exists last. apply log_since_app. exact H.
Qed.

(** ** More on [get_transcript] *)

(** X5.  When the fetch raises an exception that is neither
    [NoTranscriptFound] nor [TranscriptsDisabled], [get_transcript] answers
    500 with the detail [An unexpected error occurred: <str(e)>], makes no
    listing call, and its last log record is [CRITICAL] with the traceback
    requested. *)
Theorem unexpected_fetch_failure_is_500
    (video_id : string) (languages : list string) (w : world) (m : string) :
  api_get_transcript api video_id languages = inr (OtherException m) ->
  let w' := snd (serve (get_transcript repr api video_id languages) w) in
  fst (serve (get_transcript repr api video_id languages) w) =
  Response 500 (VDict [("detail", VStr ("An unexpected error occurred: " ++ m))])
  /\ calls_since w w' = [CallGetTranscript video_id languages]
  /\ exists first,
       log_since w w' =
       [first;
        mkLogRecord CRITICAL ("An unexpected error occurred for video_id '"
                              ++ video_id ++ "': " ++ m) true].
Proof.
  intros H. cbv zeta. split; [| split].
  - rewrite serve_get_transcript_outcome, H. reflexivity.
  - apply calls_since_app. rewrite serve_get_transcript_calls, H. reflexivity.
  - eexists. apply log_since_app. rewrite serve_get_transcript_log, H. reflexivity.
Qed.

(** Closes the cases of a table of statuses: contradictory equations, and
    the side that holds. *)
Ltac settle_table :=
  repeat match goal with
         | H : exists _, _ |- _ => destruct H
         | H : _ /\ _ |- _ => destruct H
         | H : _ \/ _ |- _ => destruct H
         | H : _ = _ |- _ => discriminate H
         | H : Some _ = Some ?x |- _ => is_var x; injection H as <-
         end;
  try reflexivity; eauto 8.

(** X6.  What [get_transcript] itself produces, in full.  It answers 200
    exactly when the fetch returned; 403 exactly when the fetch raised
    [TranscriptsDisabled], or raised [NoTranscriptFound] and the listing
    raised [TranscriptsDisabled]; 404 exactly when the fetch raised
    [NoTranscriptFound] and the listing returned; 500 exactly when the fetch
    raised any other exception.  It builds no response at all, the exception
    leaving the handler, exactly when the fetch raised [NoTranscriptFound]
    and the listing raised something other than [TranscriptsDisabled].  The
    handler builds no response with another status, and one of the five cases
    always applies. *)
Theorem get_transcript_outcome_table
    (video_id : string) (languages : list string) (w : world) :
  let out := fst (serve (get_transcript repr api video_id languages) w) in
  let fetch := api_get_transcript api video_id languages in
  let listing := api_list_transcripts api video_id in
  ((exists body, out = Response 200 body) <-> exists segments, fetch = inl segments)
  /\ ((exists body, out = Response 403 body) <->
      (exists m, fetch = inr (TranscriptsDisabled m))
      \/ ((exists m, fetch = inr (NoTranscriptFound m))
          /\ exists m, listing = inr (TranscriptsDisabled m)))
  /\ ((exists body, out = Response 404 body) <->
      (exists m, fetch = inr (NoTranscriptFound m))
      /\ exists available_transcripts, listing = inl available_transcripts)
  /\ ((exists body, out = Response 500 body) <->
      exists m, fetch = inr (OtherException m))
  /\ ((exists e, out = Unhandled e) <->
      (exists m, fetch = inr (NoTranscriptFound m))
      /\ exists e, listing = inr e /\ forall m, e <> TranscriptsDisabled m)
  /\ (forall status_code body,
        out = Response status_code body ->
        status_code = 200 \/ status_code = 403 \/ status_code = 404
        \/ status_code = 500)
  /\ ((exists status_code body, out = Response status_code body)
      \/ exists e, out = Unhandled e).
Proof.
  cbv zeta. rewrite serve_get_transcript_outcome.
  destruct (api_get_transcript api video_id languages) as [tl | [m | m | m]];
    [| destruct (api_list_transcripts api video_id) as [ts | [m' | m' | m']] | |];
    repeat split; intros; settle_table;
    try (match goal with
         | H : Response _ _ = Response ?sc _ |- _ => injection H as <- _; auto
         end; fail);
    try (match goal with
         | H : inr _ = inr ?x, N : forall m, ?x <> TranscriptsDisabled m |- _ =>
             injection H as <-; exfalso; exact (N _ eq_refl)
         end);
    try (eexists; split; [reflexivity | intros; discriminate]).
Qed.

(** X7.  The levels of the records one run of [get_transcript] writes
    follow what the library did: a [CRITICAL] record is written exactly when
    the fetch raised an exception other than [NoTranscriptFound] and
    [TranscriptsDisabled]; an [ERROR] record exactly when
    [TranscriptsDisabled] was raised, by the fetch or by the listing after a
    [NoTranscriptFound]; a [WARNING] record exactly when the fetch raised
    [NoTranscriptFound].  When the listing's exception leaves the handler,
    the run has written an [INFO] and a [WARNING] record and nothing else:
    that failure is logged neither at [ERROR] nor at [CRITICAL]. *)
Theorem get_transcript_log_levels
    (video_id : string) (languages : list string) (w : world) :
  let out := fst (serve (get_transcript repr api video_id languages) w) in
  let fetch := api_get_transcript api video_id languages in
  let listing := api_list_transcripts api video_id in
  let written :=
    levels_since w (snd (serve (get_transcript repr api video_id languages) w)) in
  (In CRITICAL written <-> exists m, fetch = inr (OtherException m))
  /\ (In ERROR written <->
      (exists m, fetch = inr (TranscriptsDisabled m))
      \/ ((exists m, fetch = inr (NoTranscriptFound m))
          /\ exists m, listing = inr (TranscriptsDisabled m)))
  /\ (In WARNING written <-> exists m, fetch = inr (NoTranscriptFound m))
  /\ (forall e, out = Unhandled e ->
                written = [INFO; WARNING]
                /\ ~ In ERROR written /\ ~ In CRITICAL written)
  /\ (forall m e,
        fetch = inr (NoTranscriptFound m) ->
        listing = inr e ->
        (forall m', e <> TranscriptsDisabled m') ->
        out = Unhandled e /\ written = [INFO; WARNING]).
Proof.
  cbv zeta. unfold levels_since.
  rewrite (log_since_app _ _ _ (serve_get_transcript_log video_id languages w)).
  rewrite serve_get_transcript_outcome.
  destruct (api_get_transcript api video_id languages) as [tl | [m | m | m]];
    [| destruct (api_list_transcripts api video_id) as [ts | [m' | m' | m']] | |];
    cbn; repeat split; intros;
    repeat match goal with
           | H : _ \/ _ |- _ => destruct H
           | H : False |- _ => destruct H
           | H : inr _ = inr _ |- _ => injection H as <-
           | H : forall m, TranscriptsDisabled ?x <> TranscriptsDisabled m |- _ =>
               exfalso; exact (H x eq_refl)
           end;
    settle_table;
    try (intuition discriminate).
Qed.

(** ** Several requests, and the life of the application *)

(** X8.  Requests do not influence one another: when a process serves a
    sequence of requests to the three routes, each response is the one the
    same request gets when served alone, in any world. *)
Theorem serve_all_responses_independent (reqs : list request) (w w0 : world) :
  fst (serve_all repr api reqs w) =
  map (fun r => fst (serve (route repr api r) w0)) reqs.
Proof.
  revert w. induction reqs as [| r rest IH]; intros w.
  - reflexivity.
  - rewrite serve_all_cons. cbn [fst map].
    rewrite IH, (route_outcome_any_world r w w0). reflexivity.
Qed.

(** X9.  The calls into the library made while serving a sequence of
    requests stay within two per transcript request and one per listing
    request, none for the root, and every call is about a video id that one
    of the requests names. *)
Theorem serve_all_call_budget (reqs : list request) (w : world) :
  let made := calls_since w (snd (serve_all repr api reqs w)) in
  (length made <= list_sum (map call_budget reqs))%nat
  /\ forall c, In c made ->
       exists r, In r reqs /\ request_video r = Some (call_video c).
Proof.
  cbv zeta. destruct (serve_all_calls reqs w) as [l [H [B V]]].
  rewrite (calls_since_app _ _ _ H). split; [exact B |].
  intros c Hc. exact (proj1 (Forall_forall _ _) V c Hc).
Qed.

(** X10.  Over the life of the application the log keeps what it held,
    then shows the two start-up records, then at least one record per request
    served, then the shutdown record; the events make no call into the
    library and leave the responses as they are. *)
Theorem lifespan_log_frame (reqs : list request) (w : world) :
  (exists served,
     log (snd (lifespan repr api reqs w)) =
     (log w
      ++ [mkLogRecord INFO "Application startup complete." false;
          mkLogRecord INFO "Log files will be written to api.log" false]
      ++ served
      ++ [mkLogRecord INFO "Application shutdown." false])%list
     /\ (length reqs <= length served)%nat)
  /\ (length (calls_since w (snd (lifespan repr api reqs w)))
      <= list_sum (map call_budget reqs))%nat
  /\ fst (lifespan repr api reqs w) = fst (serve_all repr api reqs w).
Proof.
  unfold lifespan.
  set (w1 := snd (startup_event (E := exn) w)).
  assert (Hlog1 : log w1 =
                  (log w ++ [mkLogRecord INFO "Application startup complete." false;
                             mkLogRecord INFO "Log files will be written to api.log"
                                         false])%list).
  { cbn. rewrite <- app_assoc. reflexivity. }
  assert (Hcalls1 : calls w1 = calls w) by reflexivity.
  destruct (serve_all_log reqs w1) as [served [Hlog Hlen]].
  destruct (serve_all_calls reqs w1) as [l [Hcalls [B _]]].
  assert (Hout := serve_all_responses_any_world reqs w1 w).
  destruct (serve_all repr api reqs w1) as [os w2]. cbn [fst snd] in *.
  split; [| split].
  - exists served. split; [| exact Hlen].
    cbn. rewrite Hlog, Hlog1, <- !app_assoc. reflexivity.
  - rewrite (calls_since_app w _ l); [exact B |].
    cbn. rewrite Hcalls, Hcalls1. reflexivity.
  - exact Hout.
Qed.

(** ** The [languages] parameter *)

(** X11.  Through the route, a request that gives no [languages] value is
    served exactly as one that gives the single value [en]; the fetch call
    always carries a non-empty language list, and the values given, in their
    order, whenever some are given. *)
Theorem omitted_languages_default (video_id : string) (w : world) :
  serve (transcript_route repr api video_id []) w =
  serve (transcript_route repr api video_id ["en"]) w
  /\ forall values,
       exists languages rest,
         calls_since w (snd (serve (transcript_route repr api video_id values) w)) =
         CallGetTranscript video_id languages :: rest
         /\ languages <> []
         /\ (values <> [] -> languages = values).
Proof.
  split; [reflexivity |].
  intros values. unfold transcript_route.
  exists (languages_param values). eexists. split; [| split].
  - apply calls_since_app. apply serve_get_transcript_calls.
  - destruct values; discriminate.
  - destruct values; [intros H; now contradiction H | reflexivity].
Qed.

End Coverage.

(** ** The claims on sample requests *)

Module Runs.
Import Samples.

(** C1, as stated, fails: with the fetch raising [NoTranscriptFound] and the
    listing raising a connection error, the response is not a 404. *)
Lemma listing_failure_is_not_404 :
  ~ exists body,
      fst (serve (get_transcript repr flaky "dQw4w9WgXcQ" ["de"]) w0) =
      Response 404 body.
Proof.
  intros [body H]. rewrite serve_get_transcript_outcome in H. discriminate H.
Qed.

Lemma not_found_response_requires_listing_witness :
  fst (serve (get_transcript repr mismatch "dQw4w9WgXcQ" ["de"]) w0) =
  Response 404
    (detail_body
       "Could not find a transcript in the requested languages: de. Available languages are: en, es")
  /\ exists m available_transcripts,
       api_get_transcript mismatch "dQw4w9WgXcQ" ["de"] = inr (NoTranscriptFound m)
       /\ api_list_transcripts mismatch "dQw4w9WgXcQ" = inl available_transcripts
       /\ detail_body (float := float)
            "Could not find a transcript in the requested languages: de. Available languages are: en, es"
          = detail_body
              ("Could not find a transcript in the requested languages: "
               ++ join ", " ["de"] ++ ". Available languages are: "
               ++ join ", " (map language_code available_transcripts)).
Proof.
  split; [reflexivity |].
  apply (not_found_response_requires_listing float repr mismatch
           "dQw4w9WgXcQ" ["de"] w0).
  reflexivity.
Defined.

(** C2 fails on this request: the connection error raised by the listing
    leaves [get_transcript]; no response with a detail is produced. *)
Theorem listing_failure_leaves_get_transcript :
  fst (serve (get_transcript repr flaky "dQw4w9WgXcQ" ["de"]) w0) =
  Unhandled (OtherException "Connection reset by peer").
Proof. reflexivity. Qed.

Lemma disabled_gives_403_witness :
  let forbidden : outcome float :=
    Response 403 (detail_body "Transcripts are disabled for video 'dQw4w9WgXcQ'.") in
  fst (serve (get_transcript repr off "dQw4w9WgXcQ" ["en"]) w0) = forbidden
  /\ fst (serve (get_transcript repr off_late "dQw4w9WgXcQ" ["en"]) w0) = forbidden
  /\ fst (serve (list_transcripts off "dQw4w9WgXcQ") w0) = forbidden.
Proof.
  cbv zeta.
  destruct (disabled_gives_403 float repr off "dQw4w9WgXcQ" ["en"] w0)
    as [Hget [_ Hlist]].
  destruct (disabled_gives_403 float repr off_late "dQw4w9WgXcQ" ["en"] w0)
    as [_ [Hlate _]].
  split; [| split].
  - apply Hget. eexists. reflexivity.
  - apply Hlate; eexists; reflexivity.
  - apply Hlist. eexists. reflexivity.
Defined.

Lemma fetched_transcript_passed_through_witness :
  api_get_transcript fine "dQw4w9WgXcQ" ["en"; "es"] = inl segments
  /\ fst (serve (get_transcript repr fine "dQw4w9WgXcQ" ["en"; "es"]) w0) =
     Response 200
       (VDict [("video_id", VStr "dQw4w9WgXcQ");
               ("transcript",
                VList [segment "never gonna" "0.0" "1.54";
                       segment "give you up" "1.54" "2.1"])]).
Proof.
  split; [reflexivity |].
  apply (fetched_transcript_passed_through float repr fine
           "dQw4w9WgXcQ" ["en"; "es"] w0 segments).
  reflexivity.
Defined.

(** C5, as stated, fails: a video with a manual and a generated English
    transcript has the code [en] listed twice in the detail. *)
Lemma shared_code_is_listed_twice :
  fst (serve (get_transcript repr twice "dQw4w9WgXcQ" ["de"]) w0) =
  Response 404
    (detail_body
       "Could not find a transcript in the requested languages: de. Available languages are: en, en")
  /\ count_occ string_dec (split_comma_space "" "en, en") (language_code en) = 2%nat.
Proof. split; reflexivity. Qed.

Lemma not_found_lists_one_entry_per_transcript_witness :
  exists entries,
    fst (serve (get_transcript repr mismatch "dQw4w9WgXcQ" ["de"; "fr"]) w0) =
    Response 404
      (detail_body
         ("Could not find a transcript in the requested languages: de, fr. Available languages are: "
          ++ join ", " entries))
    /\ entries = ["en"; "es"]
    /\ count_occ string_dec entries "en" = 1%nat
    /\ count_occ string_dec entries "es" = 1%nat
    /\ split_comma_space "" (join ", " entries) = entries.
Proof.
  destruct (not_found_lists_one_entry_per_transcript float repr mismatch
              "dQw4w9WgXcQ" ["de"; "fr"] w0 "No transcripts were found" [en; es])
    as [entries [Hresp [Hentries [_ [Honce Hsplit]]]]];
    [reflexivity | reflexivity | discriminate |].
  exists entries. split; [exact Hresp | split; [exact Hentries |]].
  assert (Hnodup : NoDup (map language_code [en; es])).
  { repeat constructor; cbn; intuition discriminate. }
  split; [| split].
  - apply (Honce Hnodup en). now left.
  - apply (Honce Hnodup es). right. now left.
  - apply Hsplit. rewrite Hentries. reflexivity.
Defined.

(** The languages reach the library in the order given and with their
    repetitions. *)
Example repeated_languages_reach_the_library :
  serve (get_transcript repr echo "dQw4w9WgXcQ" ["es"; "en"; "es"]) w0 =
  (Response 200
     (VDict [("video_id", VStr "dQw4w9WgXcQ");
             ("transcript", VList [VStr "es"; VStr "en"; VStr "es"])]),
   mkWorld [CallGetTranscript "dQw4w9WgXcQ" ["es"; "en"; "es"]]
           [mkLogRecord INFO
              "Received request for transcript of video_id: 'dQw4w9WgXcQ' with languages: ['es', 'en', 'es']"
              false;
            mkLogRecord INFO
              "Successfully fetched transcript for video_id: 'dQw4w9WgXcQ'" false]).
Proof. reflexivity. Qed.



Lemma at_most_two_calls_witness :
  calls_since w1 (snd (serve (get_transcript repr mismatch "dQw4w9WgXcQ" ["de"]) w1)) =
  [CallGetTranscript "dQw4w9WgXcQ" ["de"]; CallListTranscripts "dQw4w9WgXcQ"]
  /\ exists m,
       api_get_transcript mismatch "dQw4w9WgXcQ" ["de"] = inr (NoTranscriptFound m).
Proof.
  split; [reflexivity |].
  destruct (at_most_two_calls float repr mismatch "dQw4w9WgXcQ" ["de"] w1)
    as [listing [Hcalls [_ [Honly _]]]].
  apply Honly.
  intros ->. discriminate Hcalls.
Defined.

Lemma response_is_stateless_witness :
  api_get_transcript mismatch "dQw4w9WgXcQ" ["de"] =
  api_get_transcript mismatch_here "dQw4w9WgXcQ" ["de"]
  /\ api_list_transcripts mismatch "dQw4w9WgXcQ" =
     api_list_transcripts mismatch_here "dQw4w9WgXcQ"
  /\ fst (serve (get_transcript repr mismatch "dQw4w9WgXcQ" ["de"]) w0) =
     fst (serve (get_transcript repr mismatch_here "dQw4w9WgXcQ" ["de"]) w1).
Proof.
  split; [reflexivity | split; [reflexivity |]].
  apply (response_is_stateless float repr mismatch "dQw4w9WgXcQ" ["de"]
           mismatch_here w0 w1);
    reflexivity.
Defined.

Lemma empty_listing_is_200_witness :
  api_list_transcripts fine "dQw4w9WgXcQ" = inl []
  /\ fst (serve (list_transcripts fine "dQw4w9WgXcQ") w1) =
     Response 200 (VDict [("video_id", VStr "dQw4w9WgXcQ");
                          ("available_transcripts", VList [])]).
Proof.
  split; [reflexivity |].
  apply (empty_listing_is_200 float fine "dQw4w9WgXcQ" w1). reflexivity.
Defined.

End Runs.

(** ** More sample requests *)

Module MoreRuns.
Import Samples.

Lemma list_transcripts_keeps_every_transcript_witness :
  api_list_transcripts mismatch "dQw4w9WgXcQ" = inl [en; es]
  /\ exists entries,
       fst (serve (list_transcripts mismatch "dQw4w9WgXcQ") w0) =
       Response 200 (VDict [("video_id", VStr "dQw4w9WgXcQ");
                            ("available_transcripts", VList entries)])
       /\ length entries = 2%nat
       /\ nth_error entries 1 =
          Some (VDict [("language", VStr "Spanish");
                       ("language_code", VStr "es");
                       ("is_generated", VBool true);
                       ("is_translatable", VBool false)]).
Proof.
  split; [reflexivity |].
  destruct (list_transcripts_keeps_every_transcript float mismatch
              "dQw4w9WgXcQ" w0 [en; es] eq_refl)
    as [entries [Hresp [Hlen Hnth]]].
  exists entries. split; [exact Hresp | split; [exact Hlen |]].
  exact (Hnth 1%nat es eq_refl).
Defined.

Lemma list_transcripts_body_determines_listing_witness :
  fst (serve (list_transcripts mismatch "dQw4w9WgXcQ") w0) =
  fst (serve (list_transcripts mismatch_here "dQw4w9WgXcQ") w1)
  /\ "dQw4w9WgXcQ" = "dQw4w9WgXcQ" /\ [en; es] = [en; es].
Proof.
  split; [reflexivity |].
  apply (list_transcripts_body_determines_listing float mismatch mismatch_here
           "dQw4w9WgXcQ" "dQw4w9WgXcQ" w0 w1 [en; es] [en; es]);
    reflexivity.
Defined.

Lemma unexpected_fetch_failure_is_500_witness :
  api_get_transcript broken "dQw4w9WgXcQ" ["en"] =
  inr (OtherException "Connection reset by peer")
  /\ fst (serve (get_transcript repr broken "dQw4w9WgXcQ" ["en"]) w1) =
     Response 500
       (VDict [("detail",
                VStr "An unexpected error occurred: Connection reset by peer")])
  /\ calls_since w1 (snd (serve (get_transcript repr broken "dQw4w9WgXcQ" ["en"]) w1)) =
     [CallGetTranscript "dQw4w9WgXcQ" ["en"]].
Proof.
  split; [reflexivity |].
  destruct (unexpected_fetch_failure_is_500 float repr broken
              "dQw4w9WgXcQ" ["en"] w1 "Connection reset by peer" eq_refl)
    as [Hresp [Hcalls _]].
  split; [exact Hresp | exact Hcalls].
Defined.

(** One life of the application: the root, a fetch that finds nothing, a
    listing. *)
Example lifespan_run :
  lifespan repr mismatch
    [GetRoot; GetTranscript "dQw4w9WgXcQ" ["de"]; GetTranscriptsList "dQw4w9WgXcQ"] w0 =
  ([Response 200
      (VDict [("message",
               VStr "Welcome to the YouTube Transcript API. Go to /docs for documentation.")]);
    Response 404
      (detail_body
         "Could not find a transcript in the requested languages: de. Available languages are: en, es");
    Response 200
      (VDict [("video_id", VStr "dQw4w9WgXcQ");
              ("available_transcripts", VList [descriptor en; descriptor es])])],
   mkWorld
     [CallGetTranscript "dQw4w9WgXcQ" ["de"]; CallListTranscripts "dQw4w9WgXcQ";
      CallListTranscripts "dQw4w9WgXcQ"]
     [mkLogRecord INFO "Application startup complete." false;
      mkLogRecord INFO "Log files will be written to api.log" false;
      mkLogRecord INFO "Root endpoint was accessed." false;
      mkLogRecord INFO
        "Received request for transcript of video_id: 'dQw4w9WgXcQ' with languages: ['de']"
        false;
      mkLogRecord WARNING
        "No transcript found for video_id: 'dQw4w9WgXcQ' in languages: de" false;
      mkLogRecord INFO
        "Found available transcripts for video_id: 'dQw4w9WgXcQ': en, es" false;
      mkLogRecord INFO
        "Received request to list transcripts for video_id: 'dQw4w9WgXcQ'" false;
      mkLogRecord INFO
        "Successfully listed 2 available transcripts for video_id: 'dQw4w9WgXcQ'" false;
      mkLogRecord INFO "Application shutdown." false]).
Proof. reflexivity. Qed.

End MoreRuns.
